(** * College debt vs. salary calculator: the affordability engine

    Two shallow embeddings of the calculation performed by [App] in
    [src/App.tsx] (lines 24-50), of the form state ([handleChange], line
    22), and the properties stated about them.

    Exact arithmetic.  Every finite JavaScript number is a rational.  The
    first embedding takes the inputs as exact rationals ([Q]) and the
    repayment term, which the form reads with [parseInt], as an integer
    ([Z]), and evaluates the formulas without rounding.  It decides what
    depends on the guards, the order of the branches and the literal
    values only: which formula applies, the classification, the results
    at a salary of zero.  Two rationals are the same number when they are
    [Qeq]-equal ([==]).  A quotient whose denominator is zero is not a
    rational; every division goes through [div], which answers [None]
    there, and the engine is written in the error monad of [option].

    Binary64.  The code computes with floats.  The second embedding,
    module [Binary64], evaluates the same lines over Rocq's primitive
    binary64 numbers, where every operation rounds and a quotient by zero
    is [Infinity] or [NaN].  It decides what depends on the arithmetic:
    there the sign, the monotonicity and the absence of a division by
    zero that hold of the exact formulas fail at inputs the form can
    supply. *)

From Stdlib Require Import ZArith QArith Qpower Lia Lqa Bool String List.
From Stdlib Require Import Floats.
From Stdlib Require Import Setoid Morphisms.

Local Open Scope Q_scope.

(** ** The error monad *)

Definition ret {A : Type} (a : A) : option A := Some a.

Definition bind {A B : Type} (m : option A) (k : A -> option B) : option B :=
  match m with
  | Some a => k a
  | None => None
  end.

Notation "x <- m ;; k" := (bind m (fun x => k))
  (at level 61, m at next level, right associativity).

(** ** Primitive operations on numbers *)

(** [x > y] of the source. *)
Definition Qgtb (x y : Q) : bool := negb (Qle_bool x y).

Infix ">?" := Qgtb (at level 70, no associativity) : Q_scope.

(** [x / y] of the source; [None] stands for the division by zero. *)
Definition div (x y : Q) : option Q :=
  if Qeq_bool y 0 then None else Some (x / y).

Infix "/?" := div (at level 40, left associativity) : Q_scope.

(** [Math.pow(base, exponent)] at an integer exponent.  Zero raised to a
    negative power is a division by zero. *)
Definition Math_pow (base : Q) (exponent : Z) : option Q :=
  if Qeq_bool base 0 && (exponent <? 0)%Z then None
  else Some (base ^ exponent).

(** ** Data model *)

(** [interface DebtInput]. *)
Record DebtInput : Type := mkDebtInput {
  totalDebt : Q;
  annualSalary : Q;
  interestRate : Q;
  repaymentTerm : Z
}.

(** What [App] derives from the input before rendering. *)
Record AffordabilityResult : Type := mkAffordabilityResult {
  res_debtToIncomeRatio : Q;
  res_monthlyPayment : Q;
  res_paymentToIncomeRatio : Q;
  res_affordabilityStatus : string;
  res_affordabilityColor : string
}.

(** ** The engine, one definition per [const]/[let] of [App] *)

Section Engine.

Variable values : DebtInput.

(** Line 25. *)
Definition debtToIncomeRatio : option Q :=
  if annualSalary values >? 0
  then totalDebt values /? annualSalary values
  else ret 0.

(** Line 28. *)
Definition monthlyRate : option Q :=
  x <- interestRate values /? 100 ;;
  x /? 12.

(** Line 29. *)
Definition totalPayments : Z := (repaymentTerm values * 12)%Z.

(** Lines 30-35: [monthlyPayment] starts at 0 and is overwritten by the
    first branch whose guard holds. *)
Definition monthlyPayment : option Q :=
  r <- monthlyRate ;;
  let n := totalPayments in
  let initial := 0 in
  if (r >? 0) && (n >? 0)%Z then
    num_pow <- Math_pow (1 + r) n ;;
    den_pow <- Math_pow (1 + r) n ;;
    (totalDebt values * r * num_pow) /? (den_pow - 1)
  else if (n >? 0)%Z then
    totalDebt values /? inject_Z n
  else ret initial.

(** Line 38. *)
Definition monthlyGrossIncome : option Q :=
  annualSalary values /? 12.

(** Line 39. *)
Definition paymentToIncomeRatio : option Q :=
  payment <- monthlyPayment ;;
  income <- monthlyGrossIncome ;;
  if income >? 0
  then q <- payment /? income ;; ret (q * 100)
  else ret 0.

End Engine.

(** Lines 42-50: status and colour start at the "Comfortable" pair and are
    overwritten together. *)
Definition affordability (ratio : Q) : string * string :=
  let initial := ("Comfortable", "#16A34A")%string in
  if ratio >? 20 then ("Stretched", "#DC2626")%string
  else if ratio >? 10 then ("Moderate", "#D97706")%string
  else initial.

Definition affordabilityStatus (ratio : Q) : string := fst (affordability ratio).
Definition affordabilityColor (ratio : Q) : string := snd (affordability ratio).

(** The whole computation of [App], in source order. *)
Definition App (values : DebtInput) : option AffordabilityResult :=
  dti <- debtToIncomeRatio values ;;
  payment <- monthlyPayment values ;;
  ratio <- paymentToIncomeRatio values ;;
  ret (mkAffordabilityResult dti payment ratio
         (affordabilityStatus ratio) (affordabilityColor ratio)).

(** ** Inputs *)

(** The inputs the specification covers: no field is negative. *)
Definition nonneg_input (values : DebtInput) : Prop :=
  0 <= totalDebt values /\ 0 <= annualSalary values /\
  0 <= interestRate values /\ (0 <= repaymentTerm values)%Z.

(** The state [App] starts from (line 21), scenario A of the specification. *)
Definition scenarioA : DebtInput := mkDebtInput 45000 55000 6.5 10.
Definition scenarioB : DebtInput := mkDebtInput 20000 80000 0 5.
Definition scenarioC : DebtInput := mkDebtInput 100000 30000 8 10.
Definition scenarioD : DebtInput := mkDebtInput 10000 0 5 10.

(** ** The specification's formulas, as plain rational functions

    These follow the words of section 4.1 of the specification, with the
    total division of [Q]; the engine above is compared with them. *)

(** Step 1: [totalDebt / annualSalary] if [annualSalary > 0], else 0. *)
Definition spec_debtToIncomeRatio (debt salary : Q) : Q :=
  if Qlt_le_dec 0 salary then debt / salary else 0.

(** Step 2: the three branches, the interest-bearing one first. *)
Definition spec_monthlyPayment (debt rate : Q) (term : Z) : Q :=
  let r := rate / 100 / 12 in
  let n := (term * 12)%Z in
  match Qlt_le_dec 0 r, Z_lt_le_dec 0 n with
  | left _, left _ => debt * r * (1 + r) ^ n / ((1 + r) ^ n - 1)
  | right _, left _ => debt / inject_Z n
  | _, right _ => 0
  end.

(** Step 3: [(monthlyPayment / monthlyGrossIncome) * 100] if
    [monthlyGrossIncome > 0], else 0. *)
Definition spec_paymentToIncomeRatio (payment salary : Q) : Q :=
  let income := salary / 12 in
  if Qlt_le_dec 0 income then payment / income * 100 else 0.

(** ** Equivalence of inputs and of results as numbers *)

Definition input_equiv (v1 v2 : DebtInput) : Prop :=
  totalDebt v1 == totalDebt v2 /\ annualSalary v1 == annualSalary v2 /\
  interestRate v1 == interestRate v2 /\ repaymentTerm v1 = repaymentTerm v2.

Definition result_equiv (r1 r2 : AffordabilityResult) : Prop :=
  res_debtToIncomeRatio r1 == res_debtToIncomeRatio r2 /\
  res_monthlyPayment r1 == res_monthlyPayment r2 /\
  res_paymentToIncomeRatio r1 == res_paymentToIncomeRatio r2 /\
  res_affordabilityStatus r1 = res_affordabilityStatus r2 /\
  res_affordabilityColor r1 = res_affordabilityColor r2.

(** ** The geometric sum

    [geometric x k] is [1 + x + ... + x^(k-1)].  It does not occur in the
    source; the amortization factor [r (1+r)^k / ((1+r)^k - 1)] equals
    [(1+r)^k / geometric (1+r) k], the form in which its growth with the
    rate is proved. *)
Fixpoint geometric (x : Q) (k : nat) : Q :=
  match k with
  | O => 0
  | S j => geometric x j + x ^ Z.of_nat j
  end.

(** ** The form state (lines 21-22)

    [handleChange(field, value)] replaces one field of the state and
    copies the others.  A call is a field name with its number; the term
    receives the integer [parseInt] read (line 84). *)
Inductive Change : Type :=
  | SetTotalDebt (value : Q)
  | SetAnnualSalary (value : Q)
  | SetInterestRate (value : Q)
  | SetRepaymentTerm (value : Z).

(** [prev => ({ ...prev, [field]: value })]. *)
Definition handleChange (change : Change) (prev : DebtInput) : DebtInput :=
  match change with
  | SetTotalDebt value =>
      mkDebtInput value (annualSalary prev) (interestRate prev)
        (repaymentTerm prev)
  | SetAnnualSalary value =>
      mkDebtInput (totalDebt prev) value (interestRate prev)
        (repaymentTerm prev)
  | SetInterestRate value =>
      mkDebtInput (totalDebt prev) (annualSalary prev) value
        (repaymentTerm prev)
  | SetRepaymentTerm value =>
      mkDebtInput (totalDebt prev) (annualSalary prev) (interestRate prev)
        value
  end.


(** Whether two changes name the same field. *)
Definition same_field (c1 c2 : Change) : bool :=
  match c1, c2 with
  | SetTotalDebt _, SetTotalDebt _ => true
  | SetAnnualSalary _, SetAnnualSalary _ => true
  | SetInterestRate _, SetInterestRate _ => true
  | SetRepaymentTerm _, SetRepaymentTerm _ => true
  | _, _ => false
  end.

(** * The engine as executed: binary64

    The definitions above read lines 25-50 over the rationals.  The code
    itself computes with JavaScript numbers, which are binary64 floats:
    every operation rounds, a quotient by zero is [Infinity] or [NaN],
    and a comparison with [NaN] is false.  This module embeds the same
    lines over Rocq's primitive binary64 floats, as a program on the
    variables the body of [App] declares: each statement takes the
    variables as it finds them and returns them updated.

    [Math.pow] is a function of the host whose result the language leaves
    to the implementation; the program takes it as a parameter, and the
    theorems say what they assume of it. *)
Module Binary64.

Local Open Scope float_scope.

#[local] Set Warnings "-inexact-float".

(** [x > y] of the source: false when either side is [NaN]. *)
Definition gt (x y : float) : bool := (y <? x).

(** [interface DebtInput]. *)
Record DebtInput : Type := mkDebtInput {
  totalDebt : float;
  annualSalary : float;
  interestRate : float;
  repaymentTerm : float
}.

(** The variables declared on lines 25-50. *)
Record Locals : Type := mkLocals {
  debtToIncomeRatio : float;
  monthlyRate : float;
  totalPayments : float;
  monthlyPayment : float;
  monthlyGrossIncome : float;
  paymentToIncomeRatio : float;
  affordabilityStatus : string;
  affordabilityColor : string
}.

Definition set_debtToIncomeRatio (v : float) (s : Locals) : Locals :=
  mkLocals v (monthlyRate s) (totalPayments s) (monthlyPayment s)
    (monthlyGrossIncome s) (paymentToIncomeRatio s) (affordabilityStatus s)
    (affordabilityColor s).

Definition set_monthlyRate (v : float) (s : Locals) : Locals :=
  mkLocals (debtToIncomeRatio s) v (totalPayments s) (monthlyPayment s)
    (monthlyGrossIncome s) (paymentToIncomeRatio s) (affordabilityStatus s)
    (affordabilityColor s).

Definition set_totalPayments (v : float) (s : Locals) : Locals :=
  mkLocals (debtToIncomeRatio s) (monthlyRate s) v (monthlyPayment s)
    (monthlyGrossIncome s) (paymentToIncomeRatio s) (affordabilityStatus s)
    (affordabilityColor s).

Definition set_monthlyPayment (v : float) (s : Locals) : Locals :=
  mkLocals (debtToIncomeRatio s) (monthlyRate s) (totalPayments s) v
    (monthlyGrossIncome s) (paymentToIncomeRatio s) (affordabilityStatus s)
    (affordabilityColor s).

Definition set_monthlyGrossIncome (v : float) (s : Locals) : Locals :=
  mkLocals (debtToIncomeRatio s) (monthlyRate s) (totalPayments s)
    (monthlyPayment s) v (paymentToIncomeRatio s) (affordabilityStatus s)
    (affordabilityColor s).

Definition set_paymentToIncomeRatio (v : float) (s : Locals) : Locals :=
  mkLocals (debtToIncomeRatio s) (monthlyRate s) (totalPayments s)
    (monthlyPayment s) (monthlyGrossIncome s) v (affordabilityStatus s)
    (affordabilityColor s).

Definition set_affordability (status color : string) (s : Locals) : Locals :=
  mkLocals (debtToIncomeRatio s) (monthlyRate s) (totalPayments s)
    (monthlyPayment s) (monthlyGrossIncome s) (paymentToIncomeRatio s)
    status color.

Section Body.

Variable Math_pow : float -> float -> float.
Variable values : DebtInput.

(** Line 25. *)
Definition line_25 (s : Locals) : Locals :=
  set_debtToIncomeRatio
    (if gt (annualSalary values) 0
     then totalDebt values / annualSalary values
     else 0) s.

(** Line 28. *)
Definition line_28 (s : Locals) : Locals :=
  set_monthlyRate (interestRate values / 100 / 12) s.

(** Line 29. *)
Definition line_29 (s : Locals) : Locals :=
  set_totalPayments (repaymentTerm values * 12) s.

(** Line 30. *)
Definition line_30 (s : Locals) : Locals :=
  set_monthlyPayment 0 s.

(** Lines 31-35. *)
Definition lines_31_35 (s : Locals) : Locals :=
  if gt (monthlyRate s) 0 && gt (totalPayments s) 0 then
    set_monthlyPayment
      (totalDebt values * monthlyRate s
         * Math_pow (1 + monthlyRate s) (totalPayments s)
       / (Math_pow (1 + monthlyRate s) (totalPayments s) - 1)) s
  else if gt (totalPayments s) 0 then
    set_monthlyPayment (totalDebt values / totalPayments s) s
  else s.

(** Line 38. *)
Definition line_38 (s : Locals) : Locals :=
  set_monthlyGrossIncome (annualSalary values / 12) s.

(** Line 39. *)
Definition line_39 (s : Locals) : Locals :=
  set_paymentToIncomeRatio
    (if gt (monthlyGrossIncome s) 0
     then monthlyPayment s / monthlyGrossIncome s * 100
     else 0) s.

(** Lines 42-43. *)
Definition lines_42_43 (s : Locals) : Locals :=
  set_affordability "Comfortable" "#16A34A" s.

(** Lines 44-50. *)
Definition lines_44_50 (s : Locals) : Locals :=
  if gt (paymentToIncomeRatio s) 20 then
    set_affordability "Stretched" "#DC2626" s
  else if gt (paymentToIncomeRatio s) 10 then
    set_affordability "Moderate" "#D97706" s
  else s.

(** Lines 25-50, from the variables as an earlier run may have left
    them. *)
Definition App (s : Locals) : Locals :=
  lines_44_50 (lines_42_43 (line_39 (line_38 (lines_31_35
    (line_30 (line_29 (line_28 (line_25 s)))))))).

End Body.

(** ** Inputs at which rounding shows *)

(** A rate of 1e-13 percent: the monthly rate is below half the spacing
    of the floats at 1, so [1 + monthlyRate] is 1. *)
Definition tiny_rate : DebtInput := mkDebtInput 45000 55000 1e-13 10.

Definition tiny_rate_no_debt : DebtInput := mkDebtInput 0 55000 1e-13 10.

(** A rate of 1e-12 percent, where [1 + monthlyRate] keeps two bits of
    the rate, and the same loan without interest. *)
Definition small_rate : DebtInput := mkDebtInput 45000 55000 1e-12 10.

Definition no_interest : DebtInput := mkDebtInput 45000 55000 0 10.

(** A rate of 7500 percent over 30 years, where the power exceeds every
    float. *)
Definition huge_rate : DebtInput := mkDebtInput 45000 55000 7500 30.

(** Variables before the first run. *)
Definition blank : Locals :=
  mkLocals 0 0 0 0 0 0 EmptyString EmptyString.

(** ** A power function

    One function [Math.pow] can be at a positive whole exponent: repeated
    squaring and multiplying, each product rounded.  It serves to show
    that what the theorems assume of [Math.pow] can be met; elsewhere it
    answers [NaN]. *)
Definition whole (x : float) : option Z :=
  match Prim2SF x with
  | S754_zero _ => Some 0%Z
  | S754_finite sign m e =>
      let magnitude :=
        if (0 <=? e)%Z then Some (Zpos m * 2 ^ e)%Z
        else if (Zpos m mod 2 ^ (- e) =? 0)%Z
             then Some (Zpos m / 2 ^ (- e))%Z
             else None in
      option_map (fun z => if sign then (- z)%Z else z) magnitude
  | _ => None
  end.

Definition pow_by_squaring (base exponent : float) : float :=
  match whole exponent with
  | Some (Zpos n) => Pos.iter_op PrimFloat.mul n base
  | _ => nan
  end.

End Binary64.

(** * Properties *)

(** ** The primitive operations *)

Lemma Qgtb_true (x y : Q) : (x >? y) = true <-> y < x.
Proof.
  unfold Qgtb. rewrite negb_true_iff, <- not_true_iff_false, Qle_bool_iff.
  split; [apply Qnot_le_lt | apply Qlt_not_le].
Qed.

Lemma Qgtb_false (x y : Q) : (x >? y) = false <-> x <= y.
Proof.
  unfold Qgtb. rewrite negb_false_iff. apply Qle_bool_iff.
Qed.

Lemma Qgtb_dec (x y : Q) :
  {y < x /\ (x >? y) = true} + {x <= y /\ (x >? y) = false}.
Proof.
  destruct (Qlt_le_dec y x) as [H | H].
  - left. split; [exact H | now apply Qgtb_true].
  - right. split; [exact H | now apply Qgtb_false].
Qed.

#[export] Instance Qgtb_comp : Proper (Qeq ==> Qeq ==> eq) Qgtb.
Proof.
  intros x x' Hx y y' Hy. unfold Qgtb. now rewrite Hx, Hy.
Qed.

Lemma div_defined (x y : Q) : ~ y == 0 -> x /? y = Some (x / y).
Proof.
  intros H. unfold div.
  destruct (Qeq_bool y 0) eqn:E; [| reflexivity].
  apply Qeq_bool_iff in E. contradiction.
Qed.

Lemma div_by_zero (x y : Q) : y == 0 -> x /? y = None.
Proof.
  intros H. unfold div. now rewrite (Qeq_eq_bool _ _ H).
Qed.

Lemma Math_pow_defined (base : Q) (exponent : Z) :
  ~ base == 0 -> Math_pow base exponent = Some (base ^ exponent).
Proof.
  intros H. unfold Math_pow.
  destruct (Qeq_bool base 0) eqn:E; [| reflexivity].
  apply Qeq_bool_iff in E. contradiction.
Qed.

Lemma inject_Z_pos (n : Z) : (0 < n)%Z -> 0 < inject_Z n.
Proof.
  intros H. unfold Qlt. cbn. lia.
Qed.

(** The denominator of the amortization formula is positive under the
    guard of its branch. *)
Lemma amortization_denominator_pos (r : Q) (n : Z) :
  0 < r -> (0 < n)%Z -> 0 < (1 + r) ^ n - 1.
Proof.
  intros Hr Hn.
  assert (H : 1 < (1 + r) ^ n) by (apply Qpower_1_lt; [lra | exact Hn]).
  lra.
Qed.

(** ** Each step of the engine returns the specification's formula *)

Lemma monthlyRate_value (values : DebtInput) :
  monthlyRate values = Some (interestRate values / 100 / 12).
Proof. reflexivity. Qed.

Lemma debtToIncomeRatio_value (values : DebtInput) :
  debtToIncomeRatio values =
  Some (spec_debtToIncomeRatio (totalDebt values) (annualSalary values)).
Proof.
  unfold debtToIncomeRatio, spec_debtToIncomeRatio.
  destruct (Qgtb_dec (annualSalary values) 0) as [[H E] | [H E]]; rewrite E;
    destruct (Qlt_le_dec 0 (annualSalary values)) as [H' | H']; try lra.
  - apply div_defined. lra.
  - reflexivity.
Qed.

Lemma monthlyPayment_value (values : DebtInput) :
  monthlyPayment values =
  Some (spec_monthlyPayment (totalDebt values) (interestRate values)
          (repaymentTerm values)).
Proof.
  unfold monthlyPayment, spec_monthlyPayment, totalPayments.
  rewrite monthlyRate_value. cbn [bind].
  set (r := interestRate values / 100 / 12).
  set (n := (repaymentTerm values * 12)%Z).
  rewrite Z.gtb_ltb.
  destruct (Qgtb_dec r 0) as [[Hr E] | [Hr E]]; rewrite E;
    destruct (Qlt_le_dec 0 r) as [Hr' | Hr']; try lra;
    destruct (Z.ltb_spec 0 n) as [Hn | Hn];
    destruct (Z_lt_le_dec 0 n) as [Hn' | Hn']; try lia; cbn [andb bind];
    try reflexivity.
  - rewrite Math_pow_defined by lra. cbn [bind].
    apply div_defined.
    pose proof (amortization_denominator_pos r n Hr Hn). lra.
  - apply div_defined.
    pose proof (inject_Z_pos n Hn). lra.
Qed.

Lemma monthlyGrossIncome_value (values : DebtInput) :
  monthlyGrossIncome values = Some (annualSalary values / 12).
Proof. reflexivity. Qed.

Lemma paymentToIncomeRatio_value (values : DebtInput) :
  paymentToIncomeRatio values =
  Some (spec_paymentToIncomeRatio
          (spec_monthlyPayment (totalDebt values) (interestRate values)
             (repaymentTerm values))
          (annualSalary values)).
Proof.
  unfold paymentToIncomeRatio, spec_paymentToIncomeRatio.
  rewrite monthlyPayment_value, monthlyGrossIncome_value. cbn [bind].
  set (income := annualSalary values / 12).
  destruct (Qgtb_dec income 0) as [[H E] | [H E]]; rewrite E;
    destruct (Qlt_le_dec 0 income) as [H' | H']; try lra.
  - rewrite div_defined by lra. reflexivity.
  - reflexivity.
Qed.

Lemma App_value (values : DebtInput) :
  App values =
  Some (let payment := spec_monthlyPayment (totalDebt values)
                         (interestRate values) (repaymentTerm values) in
        let ratio := spec_paymentToIncomeRatio payment (annualSalary values) in
        mkAffordabilityResult
          (spec_debtToIncomeRatio (totalDebt values) (annualSalary values))
          payment ratio (affordabilityStatus ratio) (affordabilityColor ratio)).
Proof.
  unfold App.
  rewrite debtToIncomeRatio_value, monthlyPayment_value,
    paymentToIncomeRatio_value.
  reflexivity.
Qed.

(** ** The formulas respect equality of numbers *)

#[export] Instance spec_debtToIncomeRatio_comp :
  Proper (Qeq ==> Qeq ==> Qeq) spec_debtToIncomeRatio.
Proof.
  intros d d' Hd s s' Hs. unfold spec_debtToIncomeRatio.
  destruct (Qlt_le_dec 0 s), (Qlt_le_dec 0 s'); try lra.
  rewrite Hd, Hs. reflexivity.
Qed.

#[export] Instance spec_monthlyPayment_comp :
  Proper (Qeq ==> Qeq ==> eq ==> Qeq) spec_monthlyPayment.
Proof.
  intros d d' Hd r r' Hr n n' <-. unfold spec_monthlyPayment. cbv zeta.
  assert (Hx : r / 100 / 12 == r' / 100 / 12) by (rewrite Hr; reflexivity).
  set (x := r / 100 / 12) in *. set (x' := r' / 100 / 12) in *.
  destruct (Qlt_le_dec 0 x), (Qlt_le_dec 0 x');
    try (exfalso; lra); destruct (Z_lt_le_dec 0 (n * 12)); try reflexivity.
  - rewrite Hd, Hx. reflexivity.
  - rewrite Hd. reflexivity.
Qed.

#[export] Instance spec_paymentToIncomeRatio_comp :
  Proper (Qeq ==> Qeq ==> Qeq) spec_paymentToIncomeRatio.
Proof.
  intros p p' Hp s s' Hs. unfold spec_paymentToIncomeRatio. cbv zeta.
  assert (Hx : s / 12 == s' / 12) by (rewrite Hs; reflexivity).
  set (x := s / 12) in *. set (x' := s' / 12) in *.
  destruct (Qlt_le_dec 0 x), (Qlt_le_dec 0 x'); try lra.
  rewrite Hp, Hx. reflexivity.
Qed.

#[export] Instance affordability_comp : Proper (Qeq ==> eq) affordability.
Proof.
  intros x y H. unfold affordability. cbv zeta.
  rewrite (Qgtb_comp x y H 20 20 (Qeq_refl 20)).
  rewrite (Qgtb_comp x y H 10 10 (Qeq_refl 10)).
  reflexivity.
Qed.

(** Divisions by the literals 100 and 12 are multiplications by constants;
    after this step the linear-arithmetic procedure applies. *)
Ltac literal_divisions :=
  unfold Qdiv in *;
  change (/ 100) with (1 # 100) in *;
  change (/ 12) with (1 # 12) in *.

Lemma monthlyRate_pos (rate : Q) : 0 < rate / 100 / 12 <-> 0 < rate.
Proof. literal_divisions. split; intros H; lra. Qed.


Lemma monthlyGrossIncome_pos (salary : Q) : 0 < salary / 12 <-> 0 < salary.
Proof. literal_divisions. split; intros H; lra. Qed.

(** ** The monthly payment (lines 28-35) *)



(** ** The affordability classification (lines 42-50) *)

Lemma affordabilityStatus_cases (ratio : Q) :
  (20 < ratio /\ affordabilityStatus ratio = "Stretched"%string) \/
  (10 < ratio <= 20 /\ affordabilityStatus ratio = "Moderate"%string) \/
  (ratio <= 10 /\ affordabilityStatus ratio = "Comfortable"%string).
Proof.
  unfold affordabilityStatus, affordability. cbv zeta.
  destruct (Qgtb_dec ratio 20) as [[H20 E20] | [H20 E20]]; rewrite E20.
  - left. now split.
  - destruct (Qgtb_dec ratio 10) as [[H10 E10] | [H10 E10]]; rewrite E10.
    + right. left. now repeat split.
    + right. right. now split.
Qed.

(** C2.  The status is one of the three labels, decided by strict
    comparisons in order: above 20 it is Stretched, above 10 and at most
    20 it is Moderate, at most 10 it is Comfortable.  The bands do not
    overlap, so exactly one label applies; a ratio of exactly 10 is
    Comfortable and a ratio of exactly 20 is Moderate. *)
Theorem affordabilityStatus_partition (ratio : Q) :
  (affordabilityStatus ratio = "Stretched"%string <-> 20 < ratio) /\
  (affordabilityStatus ratio = "Moderate"%string <-> 10 < ratio <= 20) /\
  (affordabilityStatus ratio = "Comfortable"%string <-> ratio <= 10) /\
  (affordabilityStatus ratio = "Stretched"%string \/
   affordabilityStatus ratio = "Moderate"%string \/
   affordabilityStatus ratio = "Comfortable"%string) /\
  (ratio == 10 -> affordabilityStatus ratio = "Comfortable"%string) /\
  (ratio == 20 -> affordabilityStatus ratio = "Moderate"%string).
Proof.
  destruct (affordabilityStatus_cases ratio)
    as [[H E] | [[[H H'] E] | [H E]]]; rewrite E;
    repeat split; intros; try discriminate; try lra; auto.
Qed.

(** ** Zero salary (lines 25 and 38-39) *)

(** C3.  With a salary of zero the engine returns a result, and in it the
    debt-to-income ratio and the payment-to-income ratio are both zero,
    whatever the debt, the rate and the term are. *)
Theorem zero_salary_ratios (values : DebtInput) :
  annualSalary values == 0 ->
  debtToIncomeRatio values = Some 0 /\
  paymentToIncomeRatio values = Some 0 /\
  exists res, App values = Some res /\
    res_debtToIncomeRatio res = 0 /\ res_paymentToIncomeRatio res = 0.
Proof.
  intros Hs.
  assert (Hd : spec_debtToIncomeRatio (totalDebt values) (annualSalary values)
               = 0).
  { unfold spec_debtToIncomeRatio.
    destruct (Qlt_le_dec 0 (annualSalary values)); [exfalso; lra | reflexivity]. }
  assert (Hp : forall p, spec_paymentToIncomeRatio p (annualSalary values) = 0).
  { intros p. unfold spec_paymentToIncomeRatio. cbv zeta.
    destruct (Qlt_le_dec 0 (annualSalary values / 12)) as [H | H];
      [| reflexivity].
    apply (proj1 (monthlyGrossIncome_pos _)) in H. exfalso; lra. }
  rewrite debtToIncomeRatio_value, paymentToIncomeRatio_value, App_value.
  cbv zeta. rewrite Hd, !Hp. repeat split.
  eexists. split; [reflexivity |]. split; reflexivity.
Qed.

Lemma zero_salary_ratios_witness :
  annualSalary scenarioD == 0 /\
  debtToIncomeRatio scenarioD = Some 0 /\
  paymentToIncomeRatio scenarioD = Some 0.
Proof.
  assert (H : annualSalary scenarioD == 0) by reflexivity.
  split; [exact H |].
  destruct (zero_salary_ratios scenarioD H) as (H1 & H2 & _).
  split; [exact H1 | exact H2].
Defined.

(** ** Totality, in exact arithmetic *)

(** The guards matter: the same division without its guard fails. *)
Lemma unguarded_division_fails (values : DebtInput) :
  annualSalary values == 0 ->
  totalDebt values /? annualSalary values = None.
Proof. apply div_by_zero. Qed.

(** In exact arithmetic every step that divides returns a value on a
    non-negative input, and so does the whole computation.  The floats do
    not keep this: see the engine as executed, below. *)
Theorem App_total (values : DebtInput) :
  nonneg_input values ->
  (exists res, App values = Some res) /\
  debtToIncomeRatio values <> None /\
  monthlyRate values <> None /\
  monthlyPayment values <> None /\
  monthlyGrossIncome values <> None /\
  paymentToIncomeRatio values <> None.
Proof.
  intros _.
  rewrite App_value, debtToIncomeRatio_value, monthlyRate_value,
    monthlyPayment_value, monthlyGrossIncome_value, paymentToIncomeRatio_value.
  split; [eexists; reflexivity |].
  repeat split; discriminate.
Qed.

Lemma App_total_witness :
  nonneg_input scenarioA /\ exists res, App scenarioA = Some res.
Proof.
  assert (H : nonneg_input scenarioA).
  { unfold nonneg_input; cbn. repeat split; try lra; lia. }
  split; [exact H |].
  exact (proj1 (App_total scenarioA H)).
Defined.

(** ** Scenario B *)

(** C8.  For a debt of 20000, a salary of 80000, no interest and a term of
    5 years the engine returns a monthly payment of 20000/60, a
    payment-to-income ratio of 5 and the status Comfortable. *)
Theorem scenarioB_result :
  exists res, App scenarioB = Some res /\
    res_monthlyPayment res == 20000 / 60 /\
    res_paymentToIncomeRatio res == 5 /\
    res_affordabilityStatus res = "Comfortable"%string.
Proof.
  eexists. split; [vm_compute; reflexivity |].
  repeat split.
Qed.

(** The other scenarios of the specification, as checks of the embedding:
    the amortized payment of scenario A rounds to 511. *)
Example scenarioA_result :
  exists res, App scenarioA = Some res /\
    0.818 < res_debtToIncomeRatio res < 0.819 /\
    510.5 <= res_monthlyPayment res < 511.5 /\
    11.14 < res_paymentToIncomeRatio res < 11.16 /\
    res_affordabilityStatus res = "Moderate"%string.
Proof.
  eexists. split; [vm_compute; reflexivity |].
  vm_compute. intuition discriminate.
Qed.

Example scenarioC_result :
  exists res, App scenarioC = Some res /\
    3.33 < res_debtToIncomeRatio res < 3.34 /\
    res_affordabilityStatus res = "Stretched"%string.
Proof.
  eexists. split; [vm_compute; reflexivity |].
  vm_compute. intuition discriminate.
Qed.

Example scenarioD_result :
  exists res, App scenarioD = Some res /\
    res_debtToIncomeRatio res = 0 /\
    res_paymentToIncomeRatio res = 0 /\
    res_affordabilityStatus res = "Comfortable"%string.
Proof.
  eexists. split; [vm_compute; reflexivity |].
  repeat split.
Qed.

(** ** Dependence on the input *)

(** C9.  The debt-to-income ratio is a function of the debt and the salary
    alone: two inputs with the same debt and salary have the same ratio,
    whatever their rates and terms are. *)
Theorem debtToIncomeRatio_noninterference (v1 v2 : DebtInput) :
  totalDebt v1 == totalDebt v2 ->
  annualSalary v1 == annualSalary v2 ->
  (exists d1 d2, debtToIncomeRatio v1 = Some d1 /\
                 debtToIncomeRatio v2 = Some d2 /\ d1 == d2) /\
  (totalDebt v1 = totalDebt v2 -> annualSalary v1 = annualSalary v2 ->
   debtToIncomeRatio v1 = debtToIncomeRatio v2).
Proof.
  intros Hd Hs. split.
  - rewrite !debtToIncomeRatio_value.
    do 2 eexists. split; [reflexivity |]. split; [reflexivity |].
    now rewrite Hd, Hs.
  - intros Ed Es. unfold debtToIncomeRatio. now rewrite Ed, Es.
Qed.

Lemma debtToIncomeRatio_noninterference_witness :
  debtToIncomeRatio scenarioA =
  debtToIncomeRatio (mkDebtInput 45000 55000 0 30).
Proof.
  refine (proj2 (debtToIncomeRatio_noninterference scenarioA
                   (mkDebtInput 45000 55000 0 30) _ _) _ _);
    reflexivity.
Defined.

(** The formulas respect equality of numbers: inputs whose fields are
    equal as rationals give results whose fields are equal as rationals,
    with the same status. *)
Theorem App_deterministic (v1 v2 : DebtInput) :
  input_equiv v1 v2 ->
  (exists r1 r2, App v1 = Some r1 /\ App v2 = Some r2 /\ result_equiv r1 r2) /\
  (v1 = v2 -> App v1 = App v2).
Proof.
  intros (Hd & Hs & Hr & Hn). split; [| now intros ->].
  rewrite !App_value. cbv zeta.
  do 2 eexists. split; [reflexivity |]. split; [reflexivity |].
  assert (Hp : spec_monthlyPayment (totalDebt v1) (interestRate v1)
                 (repaymentTerm v1) ==
               spec_monthlyPayment (totalDebt v2) (interestRate v2)
                 (repaymentTerm v2))
    by (rewrite Hd, Hr, Hn; reflexivity).
  assert (Hq : spec_paymentToIncomeRatio
                 (spec_monthlyPayment (totalDebt v1) (interestRate v1)
                    (repaymentTerm v1)) (annualSalary v1) ==
               spec_paymentToIncomeRatio
                 (spec_monthlyPayment (totalDebt v2) (interestRate v2)
                    (repaymentTerm v2)) (annualSalary v2))
    by (rewrite Hp, Hs; reflexivity).
  unfold result_equiv, affordabilityStatus, affordabilityColor. cbn.
  rewrite (affordability_comp _ _ Hq).
  repeat split; try assumption.
  rewrite Hd, Hs. reflexivity.
Qed.

Lemma App_deterministic_witness :
  input_equiv scenarioB (mkDebtInput (40000 # 2) 80000 (0 # 7) 5) /\
  exists r1 r2, App scenarioB = Some r1 /\
    App (mkDebtInput (40000 # 2) 80000 (0 # 7) 5) = Some r2 /\
    result_equiv r1 r2.
Proof.
  assert (H : input_equiv scenarioB (mkDebtInput (40000 # 2) 80000 (0 # 7) 5)).
  { unfold input_equiv; cbn. repeat split. }
  split; [exact H |].
  exact (proj1 (App_deterministic _ _ H)).
Defined.

(** ** Each formula is the debt (or the payment) times a non-negative
       factor *)

Lemma spec_debtToIncomeRatio_linear (debt salary : Q) :
  spec_debtToIncomeRatio debt salary ==
  debt * spec_debtToIncomeRatio 1 salary.
Proof.
  unfold spec_debtToIncomeRatio.
  destruct (Qlt_le_dec 0 salary); [field; lra | ring].
Qed.

Lemma spec_debtToIncomeRatio_factor (salary : Q) :
  0 <= spec_debtToIncomeRatio 1 salary.
Proof.
  unfold spec_debtToIncomeRatio.
  destruct (Qlt_le_dec 0 salary) as [H | H]; [| lra].
  apply Qle_shift_div_l; [exact H | lra].
Qed.

Lemma spec_monthlyPayment_linear (debt rate : Q) (term : Z) :
  spec_monthlyPayment debt rate term ==
  debt * spec_monthlyPayment 1 rate term.
Proof.
  unfold spec_monthlyPayment. cbv zeta.
  set (r := rate / 100 / 12). set (n := (term * 12)%Z).
  destruct (Qlt_le_dec 0 r) as [Hr | Hr];
    destruct (Z_lt_le_dec 0 n) as [Hn | Hn]; try ring.
  - pose proof (amortization_denominator_pos r n Hr Hn). field. lra.
  - pose proof (inject_Z_pos n Hn). field. lra.
Qed.

Lemma spec_monthlyPayment_factor (rate : Q) (term : Z) :
  0 <= spec_monthlyPayment 1 rate term.
Proof.
  unfold spec_monthlyPayment. cbv zeta.
  set (r := rate / 100 / 12). set (n := (term * 12)%Z).
  destruct (Qlt_le_dec 0 r) as [Hr | Hr];
    destruct (Z_lt_le_dec 0 n) as [Hn | Hn]; try lra.
  - pose proof (amortization_denominator_pos r n Hr Hn) as Hden.
    apply Qle_shift_div_l; [exact Hden |].
    assert (0 < (1 + r) ^ n) by lra.
    rewrite Qmult_0_l, Qmult_1_l.
    apply Qmult_le_0_compat; lra.
  - pose proof (inject_Z_pos n Hn) as Hden.
    apply Qle_shift_div_l; [exact Hden | lra].
Qed.

Lemma spec_paymentToIncomeRatio_linear (payment salary : Q) :
  spec_paymentToIncomeRatio payment salary ==
  payment * spec_paymentToIncomeRatio 1 salary.
Proof.
  unfold spec_paymentToIncomeRatio. cbv zeta.
  set (income := salary / 12).
  destruct (Qlt_le_dec 0 income); [field; lra | ring].
Qed.

Lemma spec_paymentToIncomeRatio_factor (salary : Q) :
  0 <= spec_paymentToIncomeRatio 1 salary.
Proof.
  unfold spec_paymentToIncomeRatio. cbv zeta.
  set (income := salary / 12).
  destruct (Qlt_le_dec 0 income) as [H | H]; [| lra].
  assert (0 <= 1 / income) by (apply Qle_shift_div_l; [exact H | lra]).
  lra.
Qed.

(** A non-negative factor keeps the sign and the order of what it
    multiplies. *)
Lemma factor_nonneg (x c : Q) : 0 <= x -> 0 <= c -> 0 <= x * c.
Proof. apply Qmult_le_0_compat. Qed.

Lemma factor_monotone (x y c : Q) : x <= y -> 0 <= c -> x * c <= y * c.
Proof. intros Hxy Hc. now apply Qmult_le_compat_r. Qed.

Lemma spec_debtToIncomeRatio_monotone (d1 d2 salary : Q) :
  d1 <= d2 ->
  spec_debtToIncomeRatio d1 salary <= spec_debtToIncomeRatio d2 salary.
Proof.
  intros H.
  rewrite (spec_debtToIncomeRatio_linear d1), (spec_debtToIncomeRatio_linear d2).
  apply factor_monotone; [exact H | apply spec_debtToIncomeRatio_factor].
Qed.

Lemma spec_monthlyPayment_monotone (d1 d2 rate : Q) (term : Z) :
  d1 <= d2 ->
  spec_monthlyPayment d1 rate term <= spec_monthlyPayment d2 rate term.
Proof.
  intros H.
  rewrite (spec_monthlyPayment_linear d1), (spec_monthlyPayment_linear d2).
  apply factor_monotone; [exact H | apply spec_monthlyPayment_factor].
Qed.

Lemma spec_paymentToIncomeRatio_monotone (p1 p2 salary : Q) :
  p1 <= p2 ->
  spec_paymentToIncomeRatio p1 salary <= spec_paymentToIncomeRatio p2 salary.
Proof.
  intros H.
  rewrite (spec_paymentToIncomeRatio_linear p1),
    (spec_paymentToIncomeRatio_linear p2).
  apply factor_monotone; [exact H | apply spec_paymentToIncomeRatio_factor].
Qed.

(** ** Sign of the outputs, in exact arithmetic *)

(** In exact arithmetic the three numeric outputs of a non-negative
    input are non-negative.  The floats do not keep this: see the engine
    as executed, below. *)
Theorem outputs_nonneg (values : DebtInput) :
  nonneg_input values ->
  exists res, App values = Some res /\
    0 <= res_debtToIncomeRatio res /\
    0 <= res_monthlyPayment res /\
    0 <= res_paymentToIncomeRatio res.
Proof.
  intros (Hd & _).
  rewrite App_value. cbv zeta. eexists. split; [reflexivity |]. cbn.
  assert (Hp : 0 <= spec_monthlyPayment (totalDebt values)
                      (interestRate values) (repaymentTerm values)).
  { rewrite spec_monthlyPayment_linear.
    apply factor_nonneg; [exact Hd | apply spec_monthlyPayment_factor]. }
  repeat split.
  - rewrite spec_debtToIncomeRatio_linear.
    apply factor_nonneg; [exact Hd | apply spec_debtToIncomeRatio_factor].
  - exact Hp.
  - rewrite spec_paymentToIncomeRatio_linear.
    apply factor_nonneg; [exact Hp | apply spec_paymentToIncomeRatio_factor].
Qed.

Lemma outputs_nonneg_witness :
  nonneg_input scenarioC /\
  exists res, App scenarioC = Some res /\
    0 <= res_debtToIncomeRatio res /\
    0 <= res_monthlyPayment res /\
    0 <= res_paymentToIncomeRatio res.
Proof.
  assert (H : nonneg_input scenarioC).
  { unfold nonneg_input; cbn. repeat split; try lra; lia. }
  split; [exact H | exact (outputs_nonneg scenarioC H)].
Defined.

(** ** Monotonicity in the debt, in exact arithmetic *)

(** In exact arithmetic the payment and both ratios grow with the debt.
    The floats do not keep this where the payment is [NaN]: see the
    engine as executed, below. *)
Theorem monotone_in_totalDebt (v1 v2 : DebtInput) :
  annualSalary v1 == annualSalary v2 ->
  interestRate v1 == interestRate v2 ->
  repaymentTerm v1 = repaymentTerm v2 ->
  0 <= totalDebt v1 -> totalDebt v1 <= totalDebt v2 ->
  exists r1 r2, App v1 = Some r1 /\ App v2 = Some r2 /\
    res_monthlyPayment r1 <= res_monthlyPayment r2 /\
    res_debtToIncomeRatio r1 <= res_debtToIncomeRatio r2 /\
    res_paymentToIncomeRatio r1 <= res_paymentToIncomeRatio r2.
Proof.
  intros Hs Hr Hn _ Hd.
  rewrite !App_value. cbv zeta.
  do 2 eexists. split; [reflexivity |]. split; [reflexivity |]. cbn.
  assert (Hp : spec_monthlyPayment (totalDebt v1) (interestRate v1)
                 (repaymentTerm v1) <=
               spec_monthlyPayment (totalDebt v2) (interestRate v2)
                 (repaymentTerm v2)).
  { rewrite Hr, Hn. now apply spec_monthlyPayment_monotone. }
  repeat split.
  - exact Hp.
  - rewrite Hs. now apply spec_debtToIncomeRatio_monotone.
  - rewrite Hs. now apply spec_paymentToIncomeRatio_monotone.
Qed.

Lemma monotone_in_totalDebt_witness :
  exists r1 r2, App scenarioB = Some r1 /\ App (mkDebtInput 30000 80000 0 5) = Some r2 /\
    res_monthlyPayment r1 <= res_monthlyPayment r2 /\
    res_debtToIncomeRatio r1 <= res_debtToIncomeRatio r2 /\
    res_paymentToIncomeRatio r1 <= res_paymentToIncomeRatio r2.
Proof.
  apply (monotone_in_totalDebt scenarioB (mkDebtInput 30000 80000 0 5));
    cbn; try reflexivity; lra.
Defined.

(** ** Monotonicity in the interest rate, in exact arithmetic *)

Lemma Qpower_succ (x : Q) (k : nat) :
  x ^ Z.of_nat (S k) == x * x ^ Z.of_nat k.
Proof.
  rewrite Nat2Z.inj_succ. unfold Z.succ.
  rewrite Qpower_plus' by lia.
  rewrite Qpower_1_r. ring.
Qed.

Lemma Qpower_nat_pos (x : Q) (k : nat) : 0 < x -> 0 < x ^ Z.of_nat k.
Proof. intros H. now apply Qpower_0_lt. Qed.

Lemma Qpower_nat_ge_1 (x : Q) (k : nat) : 1 <= x -> 1 <= x ^ Z.of_nat k.
Proof. intros H. apply Qpower_1_le; [exact H | lia]. Qed.

(** The power grows with its base. *)
Lemma Qpower_nat_monotone (x y : Q) (k : nat) :
  0 < x -> x <= y -> x ^ Z.of_nat k <= y ^ Z.of_nat k.
Proof.
  intros Hx Hxy. induction k as [| k IH].
  - cbn. lra.
  - rewrite !Qpower_succ.
    pose proof (Qpower_nat_pos x k Hx).
    apply Qle_trans with (y * x ^ Z.of_nat k).
    + apply Qmult_le_compat_r; lra.
    + rewrite !(Qmult_comm y). apply Qmult_le_compat_r; lra.
Qed.

Lemma geometric_closed (x : Q) (k : nat) :
  (x - 1) * geometric x k == x ^ Z.of_nat k - 1.
Proof.
  induction k as [| k IH].
  - cbn. ring.
  - rewrite Qpower_succ. cbn [geometric].
    rewrite Qmult_plus_distr_r, IH. ring.
Qed.

Lemma geometric_pos (x : Q) (k : nat) : 0 < x -> 0 < geometric x (S k).
Proof.
  intros Hx. induction k as [| k IH].
  - cbn. lra.
  - cbn [geometric] in *.
    pose proof (Qpower_nat_pos x (S k) Hx). lra.
Qed.

(** Term by term: [x^k y^j <= y^k x^j] when [j <= k] and [x <= y]. *)
Lemma Qpower_cross (x y : Q) (j d : nat) :
  0 < x -> x <= y ->
  x ^ Z.of_nat (d + j) * y ^ Z.of_nat j <=
  y ^ Z.of_nat (d + j) * x ^ Z.of_nat j.
Proof.
  intros Hx Hxy. induction j as [| j IH].
  - rewrite Nat.add_0_r. cbn [Z.of_nat Qpower]. rewrite !Qmult_1_r.
    now apply Qpower_nat_monotone.
  - rewrite Nat.add_succ_r, !Qpower_succ.
    setoid_replace (x * x ^ Z.of_nat (d + j) * (y * y ^ Z.of_nat j))
      with (x * y * (x ^ Z.of_nat (d + j) * y ^ Z.of_nat j)) by ring.
    setoid_replace (y * y ^ Z.of_nat (d + j) * (x * x ^ Z.of_nat j))
      with (x * y * (y ^ Z.of_nat (d + j) * x ^ Z.of_nat j)) by ring.
    rewrite !(Qmult_comm (x * y)).
    apply Qmult_le_compat_r; [exact IH |].
    apply Qmult_le_0_compat; lra.
Qed.

(** Summed over [j < k]: [x^k (1 + y + ...) <= y^k (1 + x + ...)]. *)
Lemma geometric_cross (x y : Q) (k j : nat) :
  0 < x -> x <= y -> (j <= k)%nat ->
  x ^ Z.of_nat k * geometric y j <= y ^ Z.of_nat k * geometric x j.
Proof.
  intros Hx Hxy. induction j as [| j IH]; intros Hj.
  - cbn. lra.
  - cbn [geometric]. rewrite !Qmult_plus_distr_r.
    apply Qplus_le_compat; [apply IH; lia |].
    replace k with ((k - j) + j)%nat by lia.
    now apply Qpower_cross.
Qed.

(** The straight-line payment bounds the sum from above:
    [1 + x + ... + x^(k-1) <= k x^k] for [1 <= x]. *)
Lemma geometric_bound (x : Q) (k : nat) :
  1 <= x -> geometric x k <= inject_Z (Z.of_nat k) * x ^ Z.of_nat k.
Proof.
  intros Hx. induction k as [| k IH].
  - cbn [geometric Z.of_nat Qpower]. change (inject_Z 0) with 0. lra.
  - cbn [geometric]. rewrite Nat2Z.inj_succ. unfold Z.succ.
    rewrite inject_Z_plus. rewrite Qpower_plus' by lia. rewrite Qpower_1_r.
    pose proof (Qpower_nat_ge_1 x k Hx) as Hp.
    assert (Hk : 0 <= inject_Z (Z.of_nat k)).
    { change 0 with (inject_Z 0). rewrite <- Zle_Qle. lia. }
    set (p := x ^ Z.of_nat k) in *. set (c := inject_Z (Z.of_nat k)) in *.
    change (inject_Z 1) with 1.
    assert (H1 : c * p <= c * (p * x)).
    { rewrite !(Qmult_comm c). apply Qmult_le_compat_r; [| exact Hk].
      rewrite <- (Qmult_1_r p) at 1. rewrite !(Qmult_comm p).
      apply Qmult_le_compat_r; lra. }
    assert (H2 : p <= p * x).
    { rewrite <- (Qmult_1_r p) at 1. rewrite !(Qmult_comm p).
      apply Qmult_le_compat_r; lra. }
    lra.
Qed.

Lemma amortization_factor_geometric (r : Q) (k : nat) :
  0 < r ->
  r * (1 + r) ^ Z.of_nat (S k) / ((1 + r) ^ Z.of_nat (S k) - 1) ==
  (1 + r) ^ Z.of_nat (S k) / geometric (1 + r) (S k).
Proof.
  intros Hr.
  pose proof (geometric_closed (1 + r) (S k)) as Hc.
  assert (Hg : 0 < geometric (1 + r) (S k)) by (apply geometric_pos; lra).
  rewrite <- Hc. field. split; lra.
Qed.

(** The amortization factor grows with the monthly rate. *)
Lemma amortization_factor_monotone (r1 r2 : Q) (k : nat) :
  0 < r1 -> r1 <= r2 ->
  r1 * (1 + r1) ^ Z.of_nat (S k) / ((1 + r1) ^ Z.of_nat (S k) - 1) <=
  r2 * (1 + r2) ^ Z.of_nat (S k) / ((1 + r2) ^ Z.of_nat (S k) - 1).
Proof.
  intros H1 H12.
  rewrite !amortization_factor_geometric by lra.
  assert (Hg1 : 0 < geometric (1 + r1) (S k)) by (apply geometric_pos; lra).
  assert (Hg2 : 0 < geometric (1 + r2) (S k)) by (apply geometric_pos; lra).
  assert (Hc : (1 + r1) ^ Z.of_nat (S k) * geometric (1 + r2) (S k) <=
               (1 + r2) ^ Z.of_nat (S k) * geometric (1 + r1) (S k))
    by (apply geometric_cross; [lra | lra | lia]).
  apply Qle_shift_div_l; [exact Hg2 |].
  unfold Qdiv.
  rewrite <- Qmult_assoc, (Qmult_comm (/ _)), Qmult_assoc.
  apply Qle_shift_div_r; [exact Hg1 | exact Hc].
Qed.

(** The zero-interest payment is a lower bound of the amortized one. *)
Lemma amortization_factor_lower_bound (r : Q) (k : nat) :
  0 < r ->
  1 / inject_Z (Z.of_nat (S k)) <=
  r * (1 + r) ^ Z.of_nat (S k) / ((1 + r) ^ Z.of_nat (S k) - 1).
Proof.
  intros Hr.
  rewrite amortization_factor_geometric by exact Hr.
  assert (Hg : 0 < geometric (1 + r) (S k)) by (apply geometric_pos; lra).
  assert (Hn : 0 < inject_Z (Z.of_nat (S k))) by (apply inject_Z_pos; lia).
  assert (Hb : geometric (1 + r) (S k) <=
               inject_Z (Z.of_nat (S k)) * (1 + r) ^ Z.of_nat (S k))
    by (apply geometric_bound; lra).
  apply Qle_shift_div_l; [exact Hg |].
  unfold Qdiv.
  rewrite <- Qmult_assoc, (Qmult_comm (/ _)), Qmult_assoc.
  apply Qle_shift_div_r; [exact Hn |].
  rewrite Qmult_1_l, (Qmult_comm _ (inject_Z _)). exact Hb.
Qed.

Lemma spec_monthlyPayment_rate_monotone (rate1 rate2 : Q) (term : Z) :
  (0 < term)%Z -> 0 <= rate1 -> rate1 <= rate2 ->
  spec_monthlyPayment 1 rate1 term <= spec_monthlyPayment 1 rate2 term.
Proof.
  intros Ht H1 H12. unfold spec_monthlyPayment. cbv zeta.
  assert (Hr : rate1 / 100 / 12 <= rate2 / 100 / 12)
    by (literal_divisions; lra).
  set (r1 := rate1 / 100 / 12) in *. set (r2 := rate2 / 100 / 12) in *.
  assert (Hn : (term * 12 = Z.of_nat (S (Z.to_nat (term * 12 - 1))))%Z) by lia.
  rewrite Hn. set (k := Z.to_nat (term * 12 - 1)).
  destruct (Z_lt_le_dec 0 (Z.of_nat (S k))) as [_ | Hk]; [| lia].
  destruct (Qlt_le_dec 0 r1) as [Hr1 | Hr1];
    destruct (Qlt_le_dec 0 r2) as [Hr2 | Hr2].
  - rewrite !Qmult_1_l. now apply amortization_factor_monotone.
  - exfalso. lra.
  - rewrite Qmult_1_l. now apply amortization_factor_lower_bound.
  - apply Qle_refl.
Qed.

(** In exact arithmetic the payment grows with the rate, and the
    zero-interest payment is a lower bound of the amortized one.  The
    floats do not keep this at small rates: see the engine as executed,
    below. *)
Theorem monotone_in_interestRate (v1 v2 : DebtInput) :
  totalDebt v1 == totalDebt v2 -> 0 <= totalDebt v1 ->
  annualSalary v1 == annualSalary v2 ->
  repaymentTerm v1 = repaymentTerm v2 -> (0 < repaymentTerm v1)%Z ->
  0 <= interestRate v1 -> interestRate v1 <= interestRate v2 ->
  exists p1 p2, monthlyPayment v1 = Some p1 /\ monthlyPayment v2 = Some p2 /\
    p1 <= p2.
Proof.
  intros Hd Hd0 _ Hn Ht Hr0 Hr.
  rewrite !monthlyPayment_value.
  do 2 eexists. split; [reflexivity |]. split; [reflexivity |].
  rewrite <- Hd, <- Hn.
  rewrite (spec_monthlyPayment_linear _ (interestRate v1)),
    (spec_monthlyPayment_linear _ (interestRate v2)).
  rewrite !(Qmult_comm (totalDebt v1)).
  apply Qmult_le_compat_r; [| exact Hd0].
  now apply spec_monthlyPayment_rate_monotone.
Qed.

Lemma monotone_in_interestRate_witness :
  exists p1 p2,
    monthlyPayment scenarioB = Some p1 /\
    monthlyPayment (mkDebtInput 20000 80000 6.5 5) = Some p2 /\
    p1 <= p2.
Proof.
  apply (monotone_in_interestRate scenarioB (mkDebtInput 20000 80000 6.5 5));
    cbn; try reflexivity; try lra; lia.
Defined.

(** * Further properties of the engine *)

(** X2.  A rate that is not positive is treated as no interest: with a
    positive term the payment is the debt divided by the number of
    payments, whatever the rate is.  A term that is not positive gives a
    payment of zero, whatever the debt and the rate are. *)
Theorem monthlyPayment_nonpositive_rate_or_term (values : DebtInput) :
  (interestRate values <= 0 -> (0 < repaymentTerm values)%Z ->
   monthlyPayment values =
     Some (totalDebt values / inject_Z (repaymentTerm values * 12))) /\
  ((repaymentTerm values <= 0)%Z -> monthlyPayment values = Some 0).
Proof.
  rewrite monthlyPayment_value. unfold spec_monthlyPayment. cbv zeta.
  assert (Hr : interestRate values <= 0 ->
               interestRate values / 100 / 12 <= 0)
    by (intros H; literal_divisions; lra).
  set (r := interestRate values / 100 / 12) in *.
  split.
  - intros Hi Ht. specialize (Hr Hi).
    destruct (Qlt_le_dec 0 r); [exfalso; lra |].
    destruct (Z_lt_le_dec 0 (repaymentTerm values * 12));
      [reflexivity | lia].
  - intros Ht.
    destruct (Qlt_le_dec 0 r);
      destruct (Z_lt_le_dec 0 (repaymentTerm values * 12));
      try reflexivity; lia.
Qed.

(** ** Salary that is not positive *)

Lemma affordability_at_most_10 (ratio : Q) :
  ratio <= 10 -> affordability ratio = ("Comfortable", "#16A34A")%string.
Proof.
  intros H. unfold affordability. cbv zeta.
  destruct (Qgtb_dec ratio 20) as [[H20 E20] | [H20 E20]]; rewrite E20;
    [exfalso; lra |].
  destruct (Qgtb_dec ratio 10) as [[H10 E10] | [H10 E10]]; rewrite E10;
    [exfalso; lra | reflexivity].
Qed.

(** X3.  With a salary that is zero (or negative) the result is rated
    Comfortable, in green, whatever the debt is. *)
Theorem nonpositive_salary_is_Comfortable (values : DebtInput) :
  annualSalary values <= 0 ->
  exists res, App values = Some res /\
    res_affordabilityStatus res = "Comfortable"%string /\
    res_affordabilityColor res = "#16A34A"%string.
Proof.
  intros Hs. rewrite App_value. cbv zeta.
  eexists. split; [reflexivity |]. cbn.
  unfold affordabilityStatus, affordabilityColor.
  rewrite affordability_at_most_10; [split; reflexivity |].
  unfold spec_paymentToIncomeRatio. cbv zeta.
  destruct (Qlt_le_dec 0 (annualSalary values / 12)) as [H | H]; [| lra].
  apply (proj1 (monthlyGrossIncome_pos _)) in H. exfalso; lra.
Qed.

Lemma nonpositive_salary_is_Comfortable_witness :
  exists res, App (mkDebtInput 500000 0 15 1) = Some res /\
    res_affordabilityStatus res = "Comfortable"%string /\
    res_affordabilityColor res = "#16A34A"%string.
Proof.
  apply (nonpositive_salary_is_Comfortable (mkDebtInput 500000 0 15 1)).
  cbn. lra.
Defined.

(** ** Status and colour *)

(** X4.  The colour always goes with the status: green with Comfortable,
    amber with Moderate, red with Stretched. *)
Theorem affordabilityColor_matches_status (ratio : Q) :
  (affordabilityStatus ratio = "Comfortable"%string <->
   affordabilityColor ratio = "#16A34A"%string) /\
  (affordabilityStatus ratio = "Moderate"%string <->
   affordabilityColor ratio = "#D97706"%string) /\
  (affordabilityStatus ratio = "Stretched"%string <->
   affordabilityColor ratio = "#DC2626"%string).
Proof.
  unfold affordabilityStatus, affordabilityColor, affordability. cbv zeta.
  destruct (ratio >? 20); [| destruct (ratio >? 10)]; cbn;
    repeat split; intros H; try reflexivity; discriminate H.
Qed.

(** ** How the rating moves with the debt *)

Lemma affordabilityStatus_monotone (q1 q2 : Q) :
  q1 <= q2 ->
  (affordabilityStatus q2 = "Comfortable"%string ->
   affordabilityStatus q1 = "Comfortable"%string) /\
  (affordabilityStatus q1 = "Stretched"%string ->
   affordabilityStatus q2 = "Stretched"%string).
Proof.
  intros Hq.
  destruct (affordabilityStatus_cases q1) as [[H1 E1] | [[H1 E1] | [H1 E1]]];
    destruct (affordabilityStatus_cases q2) as [[H2 E2] | [[H2 E2] | [H2 E2]]];
    rewrite E1, E2; split; intros H; try reflexivity; try discriminate H;
    exfalso; lra.
Qed.

(** X8.  More debt never gives a better rating: of two inputs that differ
    only in the debt, if the larger debt is rated Comfortable so is the
    smaller, and if the smaller is rated Stretched so is the larger. *)
Theorem status_monotone_in_totalDebt (v1 v2 : DebtInput) :
  annualSalary v1 == annualSalary v2 ->
  interestRate v1 == interestRate v2 ->
  repaymentTerm v1 = repaymentTerm v2 ->
  totalDebt v1 <= totalDebt v2 ->
  exists r1 r2, App v1 = Some r1 /\ App v2 = Some r2 /\
    (res_affordabilityStatus r2 = "Comfortable"%string ->
     res_affordabilityStatus r1 = "Comfortable"%string) /\
    (res_affordabilityStatus r1 = "Stretched"%string ->
     res_affordabilityStatus r2 = "Stretched"%string).
Proof.
  intros Hs Hr Hn Hd. rewrite !App_value. cbv zeta.
  do 2 eexists. split; [reflexivity |]. split; [reflexivity |].
  cbn [res_affordabilityStatus].
  apply affordabilityStatus_monotone.
  rewrite Hs. apply spec_paymentToIncomeRatio_monotone.
  rewrite Hr, Hn. now apply spec_monthlyPayment_monotone.
Qed.

Lemma status_monotone_in_totalDebt_witness :
  exists r1 r2,
    App scenarioA = Some r1 /\
    App (handleChange (SetTotalDebt 100000) scenarioA) = Some r2 /\
    (res_affordabilityStatus r2 = "Comfortable"%string ->
     res_affordabilityStatus r1 = "Comfortable"%string) /\
    (res_affordabilityStatus r1 = "Stretched"%string ->
     res_affordabilityStatus r2 = "Stretched"%string).
Proof.
  apply (status_monotone_in_totalDebt scenarioA
           (handleChange (SetTotalDebt 100000) scenarioA));
    cbn; try reflexivity; lra.
Defined.

(** * The form state *)

(** ** Changes of the form state (line 22) *)







(** X18.  Changes of different fields commute: the state reached does
    not depend on the order in which two different fields are changed. *)
Theorem handleChange_commutes (c1 c2 : Change) (s : DebtInput) :
  same_field c1 c2 = false ->
  handleChange c2 (handleChange c1 s) = handleChange c1 (handleChange c2 s).
Proof.
  destruct c1, c2; cbn; intros H; try discriminate H; reflexivity.
Qed.

Lemma handleChange_commutes_witness :
  handleChange (SetRepaymentTerm 5) (handleChange (SetInterestRate 0) scenarioA)
  = handleChange (SetInterestRate 0) (handleChange (SetRepaymentTerm 5) scenarioA).
Proof.
  apply (handleChange_commutes (SetInterestRate 0) (SetRepaymentTerm 5)).
  reflexivity.
Defined.

(** * The engine as executed *)

(** ** No state is carried from one run to the next *)




(** ** The amortization denominator when the rate is lost to rounding

    Line 31 tests [monthlyRate > 0]; line 32 divides by
    [Math.pow(1 + monthlyRate, totalPayments) - 1].  In exact arithmetic
    the first implies that the second is positive
    ([amortization_denominator_pos]); over the floats it does not. *)

(** C6.  One division is not guarded: at a debt of
    45000, a salary of 55000, a rate of 1e-13 and a term of 10 both guards
    of line 31 hold, [1 + monthlyRate] is 1, the denominator of line 32 is
    zero wherever [Math.pow(1, 120)] is 1, and the payment is
    [Infinity]. *)
Theorem amortization_divides_by_zero (Math_pow : float -> float -> float)
    (before : Binary64.Locals) :
  Math_pow 1%float 120%float = 1%float ->
  let s := Binary64.App Math_pow Binary64.tiny_rate before in
  Binary64.gt (Binary64.monthlyRate s) 0 = true /\
  Binary64.gt (Binary64.totalPayments s) 0 = true /\
  (1 + Binary64.monthlyRate s)%float = 1%float /\
  (Math_pow (1 + Binary64.monthlyRate s) (Binary64.totalPayments s) - 1)%float
    = 0%float /\
  Binary64.monthlyPayment s = infinity /\
  Binary64.paymentToIncomeRatio s = infinity /\
  Binary64.affordabilityStatus s = "Stretched"%string.
Proof.
  intros H s. subst s. destruct before.
  repeat split; vm_compute; repeat (rewrite H; vm_compute); reflexivity.
Qed.

Lemma amortization_divides_by_zero_witness :
  Binary64.pow_by_squaring 1%float 120%float = 1%float /\
  Binary64.monthlyPayment
    (Binary64.App Binary64.pow_by_squaring Binary64.tiny_rate Binary64.blank)
    = infinity.
Proof.
  assert (H : Binary64.pow_by_squaring 1%float 120%float = 1%float)
    by (vm_compute; reflexivity).
  split; [exact H |].
  destruct (amortization_divides_by_zero Binary64.pow_by_squaring
              Binary64.blank H) as (_ & _ & _ & _ & Hp & _).
  exact Hp.
Defined.

(** C5.  An output can fail to be a non-negative number: at a
    debt of 0, a salary of 55000, a rate of 1e-13 and a term of 10, all
    non-negative, line 32 computes 0/0 wherever [Math.pow(1, 120)] is 1;
    the payment and the payment-to-income ratio are [NaN], and
    [0 <= NaN] is false. *)
Theorem outputs_NaN_at_zero_debt (Math_pow : float -> float -> float)
    (before : Binary64.Locals) :
  Math_pow 1%float 120%float = 1%float ->
  let s := Binary64.App Math_pow Binary64.tiny_rate_no_debt before in
  Binary64.monthlyPayment s = nan /\
  Binary64.paymentToIncomeRatio s = nan /\
  (0 <=? Binary64.monthlyPayment s)%float = false /\
  (0 <=? Binary64.paymentToIncomeRatio s)%float = false /\
  Binary64.affordabilityStatus s = "Comfortable"%string.
Proof.
  intros H s. subst s. destruct before.
  repeat split; vm_compute; repeat (rewrite H; vm_compute); reflexivity.
Qed.

Lemma outputs_NaN_at_zero_debt_witness :
  Binary64.pow_by_squaring 1%float 120%float = 1%float /\
  Binary64.monthlyPayment
    (Binary64.App Binary64.pow_by_squaring Binary64.tiny_rate_no_debt
       Binary64.blank) = nan.
Proof.
  assert (H : Binary64.pow_by_squaring 1%float 120%float = 1%float)
    by (vm_compute; reflexivity).
  split; [exact H |].
  destruct (outputs_NaN_at_zero_debt Binary64.pow_by_squaring
              Binary64.blank H) as (Hp & _).
  exact Hp.
Defined.

(** The same at a rate so large that the power overflows: the payment is
    [Infinity / Infinity]. *)
Lemma outputs_NaN_at_overflow (Math_pow : float -> float -> float)
    (before : Binary64.Locals) :
  Math_pow 7.25%float 360%float = infinity ->
  let s := Binary64.App Math_pow Binary64.huge_rate before in
  Binary64.monthlyPayment s = nan /\
  Binary64.paymentToIncomeRatio s = nan /\
  Binary64.affordabilityStatus s = "Comfortable"%string.
Proof.
  intros H s. subst s. destruct before.
  repeat split; vm_compute; repeat (rewrite H; vm_compute); reflexivity.
Qed.

(** C4.  The outputs do not always grow with the debt: at a
    salary of 55000, a rate of 1e-13 and a term of 10 the debt 0 gives a
    payment and a payment-to-income ratio of [NaN] and the larger debt
    45000 gives [Infinity], wherever [Math.pow(1, 120)] is 1; neither
    value of the larger debt is greater than or equal to that of the
    smaller. *)
Theorem not_monotone_in_totalDebt (Math_pow : float -> float -> float)
    (before : Binary64.Locals) :
  Math_pow 1%float 120%float = 1%float ->
  let v1 := Binary64.tiny_rate_no_debt in
  let v2 := Binary64.tiny_rate in
  let s1 := Binary64.App Math_pow v1 before in
  let s2 := Binary64.App Math_pow v2 before in
  Binary64.annualSalary v1 = Binary64.annualSalary v2 /\
  Binary64.interestRate v1 = Binary64.interestRate v2 /\
  Binary64.repaymentTerm v1 = Binary64.repaymentTerm v2 /\
  (0 <=? Binary64.totalDebt v1)%float = true /\
  (Binary64.totalDebt v1 <=? Binary64.totalDebt v2)%float = true /\
  (Binary64.monthlyPayment s1 <=? Binary64.monthlyPayment s2)%float = false /\
  (Binary64.paymentToIncomeRatio s1 <=? Binary64.paymentToIncomeRatio s2)%float
    = false.
Proof.
  intros H v1 v2 s1 s2. subst v1 v2 s1 s2. destruct before.
  repeat split; vm_compute; repeat (rewrite H; vm_compute); reflexivity.
Qed.

Lemma not_monotone_in_totalDebt_witness :
  Binary64.pow_by_squaring 1%float 120%float = 1%float /\
  (Binary64.monthlyPayment
     (Binary64.App Binary64.pow_by_squaring Binary64.tiny_rate_no_debt
        Binary64.blank) <=?
   Binary64.monthlyPayment
     (Binary64.App Binary64.pow_by_squaring Binary64.tiny_rate
        Binary64.blank))%float = false.
Proof.
  assert (H : Binary64.pow_by_squaring 1%float 120%float = 1%float)
    by (vm_compute; reflexivity).
  split; [exact H |].
  destruct (not_monotone_in_totalDebt Binary64.pow_by_squaring
              Binary64.blank H) as (_ & _ & _ & _ & _ & Hp & _).
  exact Hp.
Defined.

(** C10.  The payment does not always grow with the rate: at
    a debt of 45000 and a term of 10 the rate 0 gives a payment of 375,
    and the larger rate 1e-12 gives 351.8437208883575 wherever [Math.pow]
    returns the float nearest to the power of [1 + monthlyRate], which
    here is [1 + 480 * 2^-52].  The zero-interest payment is not a lower
    bound. *)
Theorem not_monotone_in_interestRate (Math_pow : float -> float -> float)
    (before : Binary64.Locals) :
  Math_pow 0x1.0000000000004p+0%float 120%float = 0x1.00000000001e0p+0%float ->
  let v1 := Binary64.no_interest in
  let v2 := Binary64.small_rate in
  let s1 := Binary64.App Math_pow v1 before in
  let s2 := Binary64.App Math_pow v2 before in
  Binary64.totalDebt v1 = Binary64.totalDebt v2 /\
  Binary64.annualSalary v1 = Binary64.annualSalary v2 /\
  Binary64.repaymentTerm v1 = Binary64.repaymentTerm v2 /\
  (0 <=? Binary64.interestRate v1)%float = true /\
  (Binary64.interestRate v1 <=? Binary64.interestRate v2)%float = true /\
  (1 + Binary64.monthlyRate s2)%float = 0x1.0000000000004p+0%float /\
  Binary64.monthlyPayment s1 = 375%float /\
  Binary64.monthlyPayment s2 = 0x1.5fd7fe1796729p+8%float /\
  (Binary64.monthlyPayment s2 <? Binary64.monthlyPayment s1)%float = true.
Proof.
  intros H v1 v2 s1 s2. subst v1 v2 s1 s2. destruct before.
  repeat split; vm_compute; repeat (rewrite H; vm_compute); reflexivity.
Qed.

Lemma not_monotone_in_interestRate_witness :
  Binary64.pow_by_squaring 0x1.0000000000004p+0%float 120%float
    = 0x1.00000000001e0p+0%float /\
  (Binary64.monthlyPayment
     (Binary64.App Binary64.pow_by_squaring Binary64.small_rate
        Binary64.blank) <?
   Binary64.monthlyPayment
     (Binary64.App Binary64.pow_by_squaring Binary64.no_interest
        Binary64.blank))%float = true.
Proof.
  assert (H : Binary64.pow_by_squaring 0x1.0000000000004p+0%float 120%float
              = 0x1.00000000001e0p+0%float)
    by (vm_compute; reflexivity).
  split; [exact H |].
  destruct (not_monotone_in_interestRate Binary64.pow_by_squaring
              Binary64.blank H) as (_ & _ & _ & _ & _ & _ & _ & _ & Hp).
  exact Hp.
Defined.
